(** * homebridge-plugin-govee: the platform of [src/platform.ts]

    A shallow embedding of [GoveeHomebridgePlatform]: the identity
    resolution and routing of readings ([goveeDiscoveredReading]), the scan
    cycle ([startScanCycle], [goveeScanStopped] and the three timer
    callbacks), and the string helper [sanitize].  The host (Homebridge),
    the radio library (govee-bt-client) and the device handler class are
    collaborators: calls into them are recorded as effects. *)

From Stdlib Require Import ZArith NArith Ascii String Lia.
From stdpp Require Import base option list gmap.

Open Scope N_scope.

(** ** JavaScript strings

    A JavaScript string is a sequence of UTF-16 code units. *)

Module JsString.

Abbreviation jsstring := (list N).

(** The code units of an ASCII literal. *)
Definition js (s : string) : jsstring :=
  map N_of_ascii (list_ascii_of_string s).

(** ECMAScript [WhiteSpace] and [LineTerminator] code points, the ones
    [String.prototype.trim] removes.  All of them are in the basic plane,
    so the test is exact on code units. *)
Definition is_white_space (c : N) : bool :=
  (c =? 0x0009) || (c =? 0x000A) || (c =? 0x000B) || (c =? 0x000C)
  || (c =? 0x000D) || (c =? 0x0020) || (c =? 0x00A0) || (c =? 0x1680)
  || ((0x2000 <=? c) && (c <=? 0x200A))
  || (c =? 0x2028) || (c =? 0x2029) || (c =? 0x202F) || (c =? 0x205F)
  || (c =? 0x3000) || (c =? 0xFEFF).

Fixpoint trim_start (s : jsstring) : jsstring :=
  match s with
  | c :: s' => if is_white_space c then trim_start s' else s
  | [] => []
  end.

Definition trim_end (s : jsstring) : jsstring :=
  reverse (trim_start (reverse s)).

(** [s.trim()] *)
Definition trim (s : jsstring) : jsstring :=
  trim_end (trim_start s).

Fixpoint starts_with (pat s : jsstring) : bool :=
  match pat, s with
  | [], _ => true
  | p :: pat', c :: s' => (p =? c) && starts_with pat' s'
  | _ :: _, [] => false
  end.

(** [s.replace(pat, rep)] for a string pattern: only the first occurrence
    of [pat] is replaced.  [rep] is taken literally, which is what
    JavaScript does when it holds no dollar sign. *)
Fixpoint replace (pat rep s : jsstring) : jsstring :=
  if starts_with pat s then rep ++ drop (length pat) s
  else match s with
       | [] => []
       | c :: s' => c :: replace pat rep s'
       end.

Definition underscore : N := 0x5F.

End JsString.
Import JsString.

(** [private sanitize(s: string): string] *)
Definition sanitize (s : jsstring) : jsstring :=
  replace (js "_") (js "") (trim s).

(** ** Data *)

Open Scope Z_scope.

(** The sensor values of a reading.  The platform passes them on and never
    computes on them. *)
Record Payload := {
  battery : Z;
  humidity : Z;
  tempInC : Z;
  tempInF : Z;
  rssi : Z }.

(** [GoveeReading] of govee-bt-client.  [uuid] and [model] are tested for
    truthiness by the platform: [None] stands for [undefined]. *)
Record GoveeReading := {
  uuid : option jsstring;
  address : jsstring;
  model : option jsstring;
  payload : Payload }.

(** [DeviceContext], the copy of the device kept in [accessory.context]
    (fields [address], [model], [uuid] in the source). *)
Record DeviceContext := {
  ctx_address : jsstring;
  ctx_model : jsstring;
  ctx_uuid : option jsstring }.

(** [accessory.context] *)
Record AccessoryContext := {
  device : option DeviceContext;
  ctx_batteryThreshold : option Z;
  ctx_humidityOffset : option Z }.

(** A [PlatformAccessory] of the host: the persisted record of a device. *)
Record PlatformAccessory := {
  displayName : jsstring;
  UUID : jsstring;
  context : AccessoryContext }.

(** [PlatformConfig], after config.schema.json. *)
Record PlatformConfig := {
  name : jsstring;
  batteryThreshold : option Z;
  debug : bool;
  humidityOffset : option Z;
  scanDuration : Z;
  cooldownDuration : Z;
  IgnoreDeviceNames : list jsstring }.

(** The two values of the host's [APIEvent] the platform stores. *)
Inductive APIEvent := DID_FINISH_LAUNCHING | SHUTDOWN.

(** Accessory objects live in a heap and are passed by address, as the
    JavaScript objects are passed by reference. *)
Abbreviation addr := nat.

(** Modelled from the spec: the Device Handler [GoveePlatformAccessory] of
    platformAccessory.ts, of which the platform uses the constructor
    (accessory, first reading) and [updateReading].  An instance is known by
    the accessory it is bound to and the reading it was built from. *)
Record GoveePlatformAccessory := {
  accessory : addr;
  reading : GoveeReading }.

(** The functions handed to [setTimeout]. *)
Inductive TimerCallback :=
| ScanDurationElapsed   (* startScanCycle, line 108 *)
| CooldownElapsed       (* goveeScanStopped, line 220 *)
| StallRecovery.        (* goveeScanStopped, line 230 *)

Inductive LogLevel := LDebug | LInfo | LWarn | LError.

Inductive LogArg :=
| AStr (s : jsstring)
| ANum (z : Z)
| AReading (r : GoveeReading).

(** Calls into the collaborators, in program order. *)
Inductive Effect :=
| Log (l : LogLevel) (msg : string) (args : list LogArg)
| GoveeDebug (b : bool)
| GoveeStartDiscovery
| GoveeRegisterScanStart
| GoveeRegisterScanStop
| GoveeStopDiscovery
| SetTimeout (cb : TimerCallback) (ms : Z)
| NewPlatformAccessory (a : addr) (display uuid : jsstring)
| UpdatePlatformAccessories (l : list addr)
| RegisterPlatformAccessories (plugin platform : jsstring) (l : list addr)
| NewGoveePlatformAccessory (a : addr) (r : GoveeReading)
| UpdateReading (h : GoveePlatformAccessory) (r : GoveeReading).

(** What the platform imports: [api.hap.uuid.generate] of the host and the
    two names of settings.ts. *)
Class Imports := {
  generate : jsstring -> jsstring;
  PLUGIN_NAME : jsstring;
  PLATFORM_NAME : jsstring }.

(** The fields of [GoveeHomebridgePlatform], the heap of accessory objects
    and the timers that are armed and have not fired. *)
Record Platform := {
  config : PlatformConfig;
  accessories : list addr;
  platformStatus : option APIEvent;
  isCooldown : option bool;
  discoveryCache : gmap jsstring GoveePlatformAccessory;
  heap : list PlatformAccessory;
  timers : list (TimerCallback * Z) }.

Definition set_accessories (l : list addr) (p : Platform) : Platform :=
  {| config := config p; accessories := l;
     platformStatus := platformStatus p; isCooldown := isCooldown p;
     discoveryCache := discoveryCache p; heap := heap p; timers := timers p |}.

Definition set_platformStatus (s : option APIEvent) (p : Platform) : Platform :=
  {| config := config p; accessories := accessories p;
     platformStatus := s; isCooldown := isCooldown p;
     discoveryCache := discoveryCache p; heap := heap p; timers := timers p |}.

Definition set_isCooldown (b : option bool) (p : Platform) : Platform :=
  {| config := config p; accessories := accessories p;
     platformStatus := platformStatus p; isCooldown := b;
     discoveryCache := discoveryCache p; heap := heap p; timers := timers p |}.

Definition set_discoveryCache (m : gmap jsstring GoveePlatformAccessory)
    (p : Platform) : Platform :=
  {| config := config p; accessories := accessories p;
     platformStatus := platformStatus p; isCooldown := isCooldown p;
     discoveryCache := m; heap := heap p; timers := timers p |}.

Definition set_heap (h : list PlatformAccessory) (p : Platform) : Platform :=
  {| config := config p; accessories := accessories p;
     platformStatus := platformStatus p; isCooldown := isCooldown p;
     discoveryCache := discoveryCache p; heap := h; timers := timers p |}.

Definition set_timers (t : list (TimerCallback * Z)) (p : Platform) : Platform :=
  {| config := config p; accessories := accessories p;
     platformStatus := platformStatus p; isCooldown := isCooldown p;
     discoveryCache := discoveryCache p; heap := heap p; timers := t |}.


(** ** Computations of the platform

    A method runs on the platform, performs effects in order, and returns
    or throws ([None]: a [TypeError] left the method). *)

Definition M (A : Type) : Type :=
  Platform -> Platform * list Effect * option A.

Definition ret {A} (a : A) : M A := fun p => (p, [], Some a).

Definition bind {A B} (m : M A) (k : A -> M B) : M B :=
  fun p =>
    match m p with
    | (p1, e1, None) => (p1, e1, None)
    | (p1, e1, Some a) =>
        match k a p1 with
        | (p2, e2, b) => (p2, e1 ++ e2, b)
        end
    end.

Notation "'let*' x ':=' m 'in' k" := (bind m (fun x => k))
  (at level 10, x name, m at level 100, k at level 200).
Notation "m ';;;' k" := (bind m (fun _ => k))
  (at level 100, k at level 200, right associativity).

Definition get : M Platform := fun p => (p, [], Some p).
Definition modify (f : Platform -> Platform) : M unit := fun p => (f p, [], Some tt).
Definition emit (e : Effect) : M unit := fun p => (p, [e], Some tt).
Definition throw {A} : M A := fun p => (p, [], None).
Definition log (l : LogLevel) (msg : string) (args : list LogArg) : M unit :=
  emit (Log l msg args).

(** [setTimeout(cb, ms)] *)
Definition setTimeout (cb : TimerCallback) (ms : Z) : M unit :=
  modify (fun p => set_timers (timers p ++ [(cb, ms)]) p) ;;;
  emit (SetTimeout cb ms).

(** The state after a computation, its effects, its result. *)
Definition state_of {A} (r : Platform * list Effect * option A) : Platform := r.1.1.
Definition effects_of {A} (r : Platform * list Effect * option A) : list Effect := r.1.2.
Definition result_of {A} (r : Platform * list Effect * option A) : option A := r.2.

(** ** The platform *)

(** JavaScript truthiness of a string that may be [undefined]. *)
Definition truthy (s : option jsstring) : bool :=
  match s with
  | Some (_ :: _) => true
  | Some [] | None => false
  end.

(** Lines 119-122: the identifier the reading is known by. *)
Definition deviceUniqueId (r : GoveeReading) : option jsstring :=
  let deviceUniqueId := uuid r in
  if truthy (model r) then model r else deviceUniqueId.

(** Lines 119-130 as a function: the identifier, or [None] where the
    method logs an error and returns. *)
Definition resolve (r : GoveeReading) : option jsstring :=
  match deviceUniqueId r with
  | Some (c :: s) => Some (c :: s)
  | Some [] | None => None
  end.

(** How [goveeDiscoveredReading] left: the branch it took. *)
Inductive RoutingOutcome := Rejected | Updated | Restored | Created.

(** [!this.platformStatus || this.platformStatus === APIEvent.SHUTDOWN]
    is false. *)
Definition running (p : Platform) : bool :=
  match platformStatus p with
  | Some DID_FINISH_LAUNCHING => true
  | Some SHUTDOWN | None => false
  end.

(** [this.accessories.find((accessory) => accessory.UUID === uuid)] *)
Fixpoint find_accessory (h : list PlatformAccessory) (u : jsstring)
    (l : list addr) : option (addr * PlatformAccessory) :=
  match l with
  | [] => None
  | a :: l' =>
      match h !! a with
      | Some acc => if bool_decide (UUID acc = u) then Some (a, acc)
                    else find_accessory h u l'
      | None => find_accessory h u l'
      end
  end.

(** [this.sanitize(x)] where [x] may be [undefined]: [undefined.trim()]
    throws. *)
Definition sanitize_arg (x : option jsstring) : M jsstring :=
  match x with
  | Some s => ret (sanitize s)
  | None => throw
  end.

(** [new this.api.platformAccessory(displayName, uuid)]: a fresh object
    with an empty context.  The checks the host makes on the two arguments
    are the host's. *)
Definition new_platformAccessory (display u : jsstring) : M addr :=
  let* p := get in
  let a := length (heap p) in
  modify (set_heap (heap p ++
    [{| displayName := display; UUID := u;
        context := {| device := None; ctx_batteryThreshold := None;
                      ctx_humidityOffset := None |} |}])) ;;;
  emit (NewPlatformAccessory a display u) ;;;
  ret a.

(** Assignment to fields of [accessory.context]. *)
Definition update_context (a : addr) (f : AccessoryContext -> AccessoryContext)
    : M unit :=
  modify (fun p =>
    set_heap (alter (fun acc => {| displayName := displayName acc;
                                   UUID := UUID acc;
                                   context := f (context acc) |}) a (heap p)) p).

Definition set_thresholds (c : PlatformConfig) (x : AccessoryContext)
    : AccessoryContext :=
  {| device := device x;
     ctx_batteryThreshold := batteryThreshold c;
     ctx_humidityOffset := humidityOffset c |}.

Definition set_device (d : DeviceContext) (x : AccessoryContext)
    : AccessoryContext :=
  {| device := Some d;
     ctx_batteryThreshold := ctx_batteryThreshold x;
     ctx_humidityOffset := ctx_humidityOffset x |}.

(** [this.discoveryCache.set(uuid, instance)] *)
Definition cache_set (u : jsstring) (h : GoveePlatformAccessory) : M unit :=
  modify (fun p => set_discoveryCache (<[u := h]> (discoveryCache p)) p).

Definition WAIT_INTERVAL : Z := 5000.

Section Platform.
Context `{Imports}.

(** [startScanCycle], lines 102-114. *)
Definition startScanCycle : M unit :=
  emit GoveeStartDiscovery ;;;
  emit GoveeRegisterScanStart ;;;
  emit GoveeRegisterScanStop ;;;
  let* p := get in
  if 0 <? scanDuration (config p) then
    log LDebug "Stop scanning after " [ANum (scanDuration (config p))] ;;;
    setTimeout ScanDurationElapsed (scanDuration (config p))
  else ret tt.

(** Lines 137-204 of [goveeDiscoveredReading]: the routing of a reading
    whose identifier is [deviceUniqueId]. *)
Definition route (deviceUniqueId : jsstring) (r : GoveeReading)
    : M RoutingOutcome :=
  let uuid_ := generate deviceUniqueId in
  let* p := get in
  let existingAccessory := find_accessory (heap p) uuid_ (accessories p) in
  match discoveryCache p !! uuid_ with
  | Some cachedInstance =>
      emit (UpdateReading cachedInstance r) ;;;
      ret Updated
  | None =>
      match existingAccessory with
      | Some (a, acc) =>
          log LInfo "Restoring existing accessory from cache:"
            [AStr (displayName acc)] ;;;
          update_context a (set_thresholds (config p)) ;;;
          emit (UpdatePlatformAccessories [a]) ;;;
          emit (NewGoveePlatformAccessory a r) ;;;
          cache_set uuid_ {| accessory := a; reading := r |} ;;;
          ret Restored
      | None =>
          let* display := sanitize_arg (model r) in
          log LInfo "Adding new accessory:" [AStr display] ;;;
          let* a := new_platformAccessory display uuid_ in
          let* m := sanitize_arg (model r) in
          let contextDevice :=
            {| ctx_address := sanitize (address r);
               ctx_model := m;
               ctx_uuid := uuid r |} in
          update_context a (set_device contextDevice) ;;;
          update_context a (set_thresholds (config p)) ;;;
          emit (NewGoveePlatformAccessory a r) ;;;
          emit (RegisterPlatformAccessories PLUGIN_NAME PLATFORM_NAME [a]) ;;;
          cache_set uuid_ {| accessory := a; reading := r |} ;;;
          ret Created
      end
  end.

(** [goveeDiscoveredReading], lines 116-205. *)
Definition goveeDiscoveredReading (r : GoveeReading) : M RoutingOutcome :=
  log LDebug "Govee reading" [AReading r] ;;;
  match resolve r with
  | None =>
      log LError "device missing unique identifier. Govee reading: "
        [AReading r] ;;;
      ret Rejected
  | Some deviceUniqueId => route deviceUniqueId r
  end.

(** [goveeScanStarted] *)
Definition goveeScanStarted : M unit :=
  log LInfo "Govee Scan Started" [].

(** [goveeScanStopped], lines 211-240. *)
Definition goveeScanStopped : M unit :=
  log LInfo "Govee Scan Stopped" [] ;;;
  let* p := get in
  if negb (running p) then ret tt
  else if bool_decide (isCooldown p = Some true) then
    log LDebug "Cooldown started" [] ;;;
    setTimeout CooldownElapsed (cooldownDuration (config p))
  else
    setTimeout StallRecovery WAIT_INTERVAL.

(** The callback armed at line 108.  The [await] ends it. *)
Definition scanDurationElapsed : M unit :=
  modify (set_isCooldown (Some true)) ;;;
  let* p := get in
  log LDebug "Start cooldown for " [ANum (cooldownDuration (config p))] ;;;
  emit GoveeStopDiscovery.

(** The callback armed at line 220. *)
Definition cooldownElapsed : M unit :=
  modify (set_isCooldown (Some false)) ;;;
  startScanCycle.

(** The callback armed at line 230. *)
Definition stallRecovery : M unit :=
  let* p := get in
  if negb (running p) then ret tt
  else
    log LWarn "Govee discovery stopped while Homebridge is running." [] ;;;
    log LInfo "Restart Discovery" [] ;;;
    emit GoveeStartDiscovery.

Definition fire (cb : TimerCallback) : M unit :=
  match cb with
  | ScanDurationElapsed => scanDurationElapsed
  | CooldownElapsed => cooldownElapsed
  | StallRecovery => stallRecovery
  end.

(** [discoverDevices], lines 85-96. *)
Definition discoverDevices : M unit :=
  log LDebug "Start discovery" [] ;;;
  let* p := get in
  (if debug (config p) then emit (GoveeDebug true) else ret tt) ;;;
  startScanCycle.

(** The listener of [didFinishLaunching], lines 53-62. *)
Definition didFinishLaunching : M unit :=
  log LDebug "Executed didFinishLaunching callback" [] ;;;
  modify (set_platformStatus (Some DID_FINISH_LAUNCHING)) ;;;
  modify (set_isCooldown (Some false)) ;;;
  discoverDevices.

(** The listener of [shutdown], lines 64-66. *)
Definition shutdown : M unit :=
  modify (set_platformStatus (Some SHUTDOWN)).

(** [configureAccessory], lines 73-78.  The host hands over an object it
    restored from disk. *)
Definition configureAccessory (acc : PlatformAccessory) : M unit :=
  log LInfo "Loading accessory from cache:" [AStr (displayName acc)] ;;;
  let* p := get in
  modify (set_heap (heap p ++ [acc])) ;;;
  modify (fun q => set_accessories (accessories q ++ [length (heap p)]) q).

(** The platform as the constructor leaves it, lines 36-47. *)
Definition new_platform (c : PlatformConfig) : Platform :=
  {| config := c; accessories := []; platformStatus := None;
     isCooldown := None; discoveryCache := ∅; heap := []; timers := [] |}.

(** ** The event loop

    What the host, the radio library and the timers may do to the
    platform, one call at a time. *)
Inductive Event :=
| DidFinishLaunching
| Shutdown
| ConfigureAccessory (acc : PlatformAccessory)
| Reading (r : GoveeReading)
| ScanStarted
| ScanStopped
| TimerFires (i : nat).

Definition handle (e : Event) : M unit :=
  match e with
  | DidFinishLaunching => didFinishLaunching
  | Shutdown => shutdown
  | ConfigureAccessory acc => configureAccessory acc
  | Reading r => goveeDiscoveredReading r ;;; ret tt
  | ScanStarted => goveeScanStarted
  | ScanStopped => goveeScanStopped
  | TimerFires i =>
      let* p := get in
      match timers p !! i with
      | Some (cb, _) => modify (set_timers (delete i (timers p))) ;;; fire cb
      | None => ret tt
      end
  end.

(** The events in order; an exception of one call ends that call only. *)
Fixpoint run (es : list Event) (p : Platform) : Platform * list Effect :=
  match es with
  | [] => (p, [])
  | e :: es' =>
      let r := handle e p in
      let r' := run es' (state_of r) in
      (r'.1, effects_of r ++ r'.2)
  end.

End Platform.

(** ** Vocabulary of the properties *)

(** Whether a string starts (ends) with white space is asked of its
    [head] ([last]). *)
Definition white (o : option N) : bool :=
  match o with
  | Some c => is_white_space c
  | None => false
  end.


(** The record of a restored device once its two settings are refreshed. *)
Definition refreshed (c : PlatformConfig) (acc : PlatformAccessory)
    : PlatformAccessory :=
  {| displayName := displayName acc; UUID := UUID acc;
     context := set_thresholds c (context acc) |}.

(** The record allocated for a device seen for the first time. *)
Definition fresh_accessory (c : PlatformConfig) (u m : jsstring)
    (r : GoveeReading) : PlatformAccessory :=
  {| displayName := sanitize m; UUID := u;
     context :=
       {| device := Some {| ctx_address := sanitize (address r);
                            ctx_model := sanitize m;
                            ctx_uuid := uuid r |};
          ctx_batteryThreshold := batteryThreshold c;
          ctx_humidityOffset := humidityOffset c |} |}.


(** Effects of the duty cycle: arming the scan-duration or the cooldown
    timer, and asking the radio library to stop. *)
Definition duty_effect (e : Effect) : bool :=
  match e with
  | SetTimeout ScanDurationElapsed _ | SetTimeout CooldownElapsed _
  | GoveeStopDiscovery => true
  | _ => false
  end.

(** What holds of the platform at all times when [scanDuration] is 0. *)
Definition continuous (p : Platform) : Prop :=
  scanDuration (config p) = 0
  /\ isCooldown p <> Some true
  /\ Forall (fun t => t.1 = StallRecovery) (timers p).

Section Bindings.
Context `{Imports}.

(** The effect builds the handler of key [u]. *)
Definition binds_key (u : jsstring) (e : Effect) : bool :=
  match e with
  | NewGoveePlatformAccessory _ r => bool_decide (generate <$> resolve r = Some u)
  | _ => false
  end.

(** How many handlers of key [u] a run of effects builds. *)
Fixpoint bindings (u : jsstring) (es : list Effect) : nat :=
  match es with
  | [] => 0
  | e :: es' => (if binds_key u e then 1 else 0) + bindings u es'
  end.

End Bindings.

(** ** Vocabulary of the further properties *)

(** A string of white space only. *)
Definition blank (s : jsstring) : Prop :=
  Forall (fun c => is_white_space c = true) s.

(** Calls into the radio library, and the arming of a timer. *)
Definition radio_or_timer (e : Effect) : bool :=
  match e with
  | GoveeDebug _ | GoveeStartDiscovery | GoveeRegisterScanStart
  | GoveeRegisterScanStop | GoveeStopDiscovery | SetTimeout _ _ => true
  | _ => false
  end.

(** Calls into the host's registry and into the handlers. *)
Definition store_effect (e : Effect) : bool :=
  match e with
  | NewPlatformAccessory _ _ _ | UpdatePlatformAccessories _
  | RegisterPlatformAccessories _ _ _ | NewGoveePlatformAccessory _ _
  | UpdateReading _ _ => true
  | _ => false
  end.

Definition is_new_handler (e : Effect) : bool :=
  match e with NewGoveePlatformAccessory _ _ => true | _ => false end.

Definition is_register (e : Effect) : bool :=
  match e with RegisterPlatformAccessories _ _ _ => true | _ => false end.

Definition is_update (e : Effect) : bool :=
  match e with UpdatePlatformAccessories _ => true | _ => false end.

(** How many effects of a run satisfy [f]. *)
Fixpoint tally (f : Effect -> bool) (es : list Effect) : nat :=
  match es with
  | [] => 0
  | e :: es' => (if f e then 1 else 0) + tally f es'
  end.

(** The UUIDs of the accessories a run of effects allocates, in order. *)
Fixpoint created_uuids (es : list Effect) : list jsstring :=
  match es with
  | [] => []
  | NewPlatformAccessory _ _ u :: es' => u :: created_uuids es'
  | _ :: es' => created_uuids es'
  end.

(** The platform holds the same configuration, list of restored
    accessories, cache and heap. *)
Definition same_store (p q : Platform) : Prop :=
  config q = config p /\ accessories q = accessories p
  /\ discoveryCache q = discoveryCache p /\ heap q = heap p.

(** The accessory differs from [acc] at most in the two settings, which
    are then those of the configuration [c]. *)
Definition settings_only (c : PlatformConfig) (acc acc' : PlatformAccessory)
    : Prop :=
  displayName acc' = displayName acc
  /\ UUID acc' = UUID acc
  /\ device (context acc') = device (context acc)
  /\ (context acc' = context acc
      \/ (ctx_batteryThreshold (context acc') = batteryThreshold c
          /\ ctx_humidityOffset (context acc') = humidityOffset c)).

Section Outcomes.
Context `{Imports}.

(** Every handler of the cache is bound to an accessory of the heap whose
    UUID is the handler's key, and the key is that of the reading the
    handler was built from. *)
Definition cache_bound (p : Platform) : Prop :=
  forall u h, discoveryCache p !! u = Some h ->
    exists acc k,
      heap p !! accessory h = Some acc /\ UUID acc = u
      /\ resolve (reading h) = Some k /\ generate k = u.

(** The five ways [goveeDiscoveredReading] leaves. *)
Inductive Routed (r : GoveeReading) (p : Platform)
    : Platform * list Effect * option RoutingOutcome -> Prop :=
| routed_rejected :
    resolve r = None ->
    Routed r p
      (p, [Log LDebug "Govee reading" [AReading r];
           Log LError "device missing unique identifier. Govee reading: "
             [AReading r]],
       Some Rejected)
| routed_updated k h :
    resolve r = Some k ->
    discoveryCache p !! generate k = Some h ->
    Routed r p
      (p, [Log LDebug "Govee reading" [AReading r]; UpdateReading h r],
       Some Updated)
| routed_restored k a acc :
    resolve r = Some k ->
    discoveryCache p !! generate k = None ->
    find_accessory (heap p) (generate k) (accessories p) = Some (a, acc) ->
    Routed r p
      (set_discoveryCache
         (<[generate k := {| accessory := a; reading := r |}]> (discoveryCache p))
         (set_heap (alter (refreshed (config p)) a (heap p)) p),
       [Log LDebug "Govee reading" [AReading r];
        Log LInfo "Restoring existing accessory from cache:"
          [AStr (displayName acc)];
        UpdatePlatformAccessories [a];
        NewGoveePlatformAccessory a r],
       Some Restored)
| routed_created k m :
    resolve r = Some k ->
    discoveryCache p !! generate k = None ->
    find_accessory (heap p) (generate k) (accessories p) = None ->
    model r = Some m ->
    Routed r p
      (set_discoveryCache
         (<[generate k := {| accessory := length (heap p); reading := r |}]>
            (discoveryCache p))
         (set_heap (heap p ++ [fresh_accessory (config p) (generate k) m r]) p),
       [Log LDebug "Govee reading" [AReading r];
        Log LInfo "Adding new accessory:" [AStr (sanitize m)];
        NewPlatformAccessory (length (heap p)) (sanitize m) (generate k);
        NewGoveePlatformAccessory (length (heap p)) r;
        RegisterPlatformAccessories PLUGIN_NAME PLATFORM_NAME [length (heap p)]],
       Some Created)
| routed_threw k :
    resolve r = Some k ->
    discoveryCache p !! generate k = None ->
    find_accessory (heap p) (generate k) (accessories p) = None ->
    model r = None ->
    Routed r p (p, [Log LDebug "Govee reading" [AReading r]], None).

End Outcomes.

(** The calls of the host's lifecycle. *)
Definition is_lifecycle (e : Event) : bool :=
  match e with DidFinishLaunching | Shutdown => true | _ => false end.

(** The calls that reach the registry: a reading, a restored accessory. *)
Definition is_discovery (e : Event) : bool :=
  match e with Reading _ | ConfigureAccessory _ => true | _ => false end.

(** The timer a stop of the scan arms on a running platform. *)
Definition scan_stop_timer (p : Platform) : TimerCallback * Z :=
  if bool_decide (isCooldown p = Some true)
  then (CooldownElapsed, cooldownDuration (config p))
  else (StallRecovery, WAIT_INTERVAL).

(** ** Sample data *)

(** An instance of the imports to run the platform on: any function will do
    for [generate]; this one returns its seed. *)
Definition host : Imports :=
  {| generate := fun seed => seed;
     PLUGIN_NAME := js "homebridge-plugin-govee";
     PLATFORM_NAME := js "GoveeHomebridgePlugin" |}.

Definition sample_payload : Payload :=
  {| battery := 87; humidity := 41; tempInC := 21; tempInF := 70; rssi := -67 |}.

Definition sample_reading (u m : option jsstring) : GoveeReading :=
  {| uuid := u; address := js "a4:c1:38:25:12:34"; model := m;
     payload := sample_payload |}.

Definition sample_config (scan cool : Z) (ignored : list jsstring) : PlatformConfig :=
  {| name := js "Govee"; batteryThreshold := Some 25; debug := false;
     humidityOffset := Some 0; scanDuration := scan; cooldownDuration := cool;
     IgnoreDeviceNames := ignored |}.

Definition govee_reading : GoveeReading :=
  sample_reading (Some (js "a4c138251234")) (Some (js "GVH5075_1234")).

(** A platform that restored one accessory from disk, for the model
    ["GVH5075_1234"]. *)
Definition restored_accessory : PlatformAccessory :=
  {| displayName := js "GVH50751234";
     UUID := generate (Imports := host) (js "GVH5075_1234");
     context :=
       {| device := Some {| ctx_address := js "a4:c1:38:25:12:34";
                            ctx_model := js "GVH50751234";
                            ctx_uuid := Some (js "a4c138251234") |};
          ctx_batteryThreshold := Some 10;
          ctx_humidityOffset := Some 3 |} |}.

Definition restarted_platform : Platform :=
  (run (H := host) [ConfigureAccessory restored_accessory; DidFinishLaunching]
     (new_platform (sample_config 0 0 []))).1.


(** A duty cycle of 1000 ms of scan and 500 ms of cooldown, shut down
    during the cooldown: the scan-duration timer fired, the scan stopped,
    the cooldown timer is armed. *)
Definition shut_down_in_cooldown : Platform :=
  (run (H := host) [DidFinishLaunching; TimerFires 0; ScanStopped; Shutdown]
     (new_platform (sample_config 1000 500 []))).1.

(** The same platform shut down during the scan: the scan-duration timer
    is armed. *)
Definition shut_down_in_scan : Platform :=
  (run (H := host) [DidFinishLaunching; Shutdown]
     (new_platform (sample_config 1000 500 []))).1.

(** * Properties *)

(** ** [sanitize] *)

Example sanitize_model : sanitize (js "GVH5075_1234") = js "GVH50751234".
Proof. reflexivity. Qed.

Example sanitize_padded : sanitize (js "  H5074_AB ") = js "H5074AB".
Proof. reflexivity. Qed.

Example sanitize_two_underscores : sanitize (js "A_B_C") = js "AB_C".
Proof. reflexivity. Qed.

Section Sanitize.

Lemma trim_start_head s : white (head (trim_start s)) = false.
Proof.
  induction s as [|c s IH]; simpl; [done|].
  destruct (is_white_space c) eqn:E; [done|]. simpl. exact E.
Qed.


Lemma trim_start_snoc s c :
  is_white_space c = false -> trim_start (s ++ [c]) = trim_start s ++ [c].
Proof.
  intros Hc. induction s as [|d s IH]; simpl.
  - by rewrite Hc.
  - destruct (is_white_space d); [exact IH | done].
Qed.

Lemma trim_end_cons c s :
  is_white_space c = false -> trim_end (c :: s) = c :: trim_end s.
Proof.
  intros Hc. unfold trim_end.
  rewrite reverse_cons, trim_start_snoc by done.
  by rewrite reverse_snoc.
Qed.

Lemma trim_end_last s : white (last (trim_end s)) = false.
Proof.
  unfold trim_end. rewrite last_reverse. apply trim_start_head.
Qed.

Lemma trim_end_head s : white (head s) = false -> white (head (trim_end s)) = false.
Proof.
  destruct s as [|c s]; simpl; [done|].
  intros Hc. by rewrite trim_end_cons.
Qed.


(** [trim] leaves no white space at either end. *)
Lemma trim_ends s : white (head (trim s)) = false /\ white (last (trim s)) = false.
Proof.
  unfold trim. split.
  - apply trim_end_head, trim_start_head.
  - apply trim_end_last.
Qed.


(** [replace("_", "")] one code unit at a time. *)
Lemma replace_underscore_cons c s :
  replace (js "_") (js "") (c :: s)
  = if (underscore =? c)%N then s else c :: replace (js "_") (js "") s.
Proof.
  change (js "_") with [underscore]. change (js "") with (@nil N).
  cbn [replace starts_with length drop app].
  destruct (underscore =? c)%N; reflexivity.
Qed.








End Sanitize.

(** ** Identity resolution *)

Lemma resolve_cases (r : GoveeReading) :
  resolve r = if truthy (model r) then model r
              else if truthy (uuid r) then uuid r else None.
Proof.
  unfold resolve, deviceUniqueId.
  destruct (model r) as [[|c s]|]; simpl;
    destruct (uuid r) as [[|d t]|]; reflexivity.
Qed.

(** C1, as the code has it.  The resolver takes the model ([modelHint])
    whenever it is present and non-empty, also when the uuid
    ([identityHint]) is present; the uuid is taken only when the model is
    absent or empty; with both absent or empty the reading is rejected.
    The identifier is taken as received, and is what [route] receives. *)
Theorem resolve_prefers_model `{Imports} (r : GoveeReading) (p : Platform) :
  resolve r = (if truthy (model r) then model r
               else if truthy (uuid r) then uuid r else None)
  /\ goveeDiscoveredReading r p =
     match resolve r with
     | Some k => (log LDebug "Govee reading" [AReading r] ;;; route k r) p
     | None =>
         (p, [Log LDebug "Govee reading" [AReading r];
              Log LError "device missing unique identifier. Govee reading: "
                [AReading r]],
          Some Rejected)
     end.
Proof.
  split; [apply resolve_cases|].
  unfold goveeDiscoveredReading.
  destruct (resolve r); reflexivity.
Qed.

(** C1 fails: with both hints present the model is the identifier, not the
    (normalized) uuid. *)
Lemma resolve_uuid_overridden :
  resolve (sample_reading (Some (js "a4c138251234")) (Some (js "GVH5075_1234")))
    = Some (js "GVH5075_1234")
  /\ resolve (sample_reading (Some (js "a4c138251234")) (Some (js "GVH5075_1234")))
    <> Some (sanitize (js "a4c138251234")).
Proof. split; [reflexivity | discriminate]. Qed.

(** C6.  A reading whose uuid and model are both absent or empty is
    rejected: the method logs the reading twice (debug, error) and returns;
    the platform, its cache included, is as before, and neither a handler
    nor the host is called. *)
Theorem unidentifiable_reading_rejected `{Imports} (r : GoveeReading) (p : Platform) :
  truthy (uuid r) = false ->
  truthy (model r) = false ->
  resolve r = None
  /\ goveeDiscoveredReading r p =
     (p, [Log LDebug "Govee reading" [AReading r];
          Log LError "device missing unique identifier. Govee reading: "
            [AReading r]],
      Some Rejected).
Proof.
  intros Hu Hm.
  assert (resolve r = None) as Hr by (by rewrite resolve_cases, Hm, Hu).
  split; [exact Hr|].
  unfold goveeDiscoveredReading. by rewrite Hr.
Qed.

Lemma unidentifiable_reading_rejected_witness :
  let r := sample_reading None (Some (js "")) in
  let p := new_platform (sample_config 0 0 []) in
  resolve r = None
  /\ goveeDiscoveredReading (H := host) r p =
     (p, [Log LDebug "Govee reading" [AReading r];
          Log LError "device missing unique identifier. Govee reading: "
            [AReading r]],
      Some Rejected).
Proof.
  apply (unidentifiable_reading_rejected (H := host)); reflexivity.
Defined.

(** ** Normalization *)




(** ** Routing *)

(** Unfolding of the computations. *)
Ltac run_m :=
  unfold bind, ret, get, modify, emit, log, throw, setTimeout, cache_set,
    update_context, new_platformAccessory, sanitize_arg,
    state_of, effects_of, result_of; simpl.

Lemma find_accessory_Some h u l a acc :
  find_accessory h u l = Some (a, acc) ->
  a ∈ l /\ h !! a = Some acc /\ UUID acc = u.
Proof.
  induction l as [|b l IH]; simpl; [done|].
  destruct (h !! b) as [x|] eqn:Hb.
  - case_bool_decide as Hu.
    + intros [= <- <-]. split; [left | done].
    + intros Hf. destruct (IH Hf) as (? & ? & ?). split; [by right | done].
  - intros Hf. destruct (IH Hf) as (? & ? & ?). split; [by right | done].
Qed.

Lemma alter_snoc {A} (f : A -> A) (l : list A) (x : A) :
  alter f (length l) (l ++ [x]) = l ++ [f x].
Proof. induction l as [|y l IH]; [done|]. simpl. f_equal. exact IH. Qed.

Section Routing.
Context `{Imports}.

Lemma route_updated k r p h :
  discoveryCache p !! generate k = Some h ->
  route k r p = (p, [UpdateReading h r], Some Updated).
Proof. intros Hc. unfold route. run_m. by rewrite Hc. Qed.

Lemma route_restored k r p a acc :
  discoveryCache p !! generate k = None ->
  find_accessory (heap p) (generate k) (accessories p) = Some (a, acc) ->
  route k r p =
    (set_discoveryCache
       (<[generate k := {| accessory := a; reading := r |}]> (discoveryCache p))
       (set_heap (alter (refreshed (config p)) a (heap p)) p),
     [Log LInfo "Restoring existing accessory from cache:" [AStr (displayName acc)];
      UpdatePlatformAccessories [a];
      NewGoveePlatformAccessory a r],
     Some Restored).
Proof. intros Hc Hf. unfold route. run_m. by rewrite Hc, Hf. Qed.

Lemma route_created k r p m :
  discoveryCache p !! generate k = None ->
  find_accessory (heap p) (generate k) (accessories p) = None ->
  model r = Some m ->
  route k r p =
    (set_discoveryCache
       (<[generate k := {| accessory := length (heap p); reading := r |}]>
          (discoveryCache p))
       (set_heap (heap p ++ [fresh_accessory (config p) (generate k) m r]) p),
     [Log LInfo "Adding new accessory:" [AStr (sanitize m)];
      NewPlatformAccessory (length (heap p)) (sanitize m) (generate k);
      NewGoveePlatformAccessory (length (heap p)) r;
      RegisterPlatformAccessories PLUGIN_NAME PLATFORM_NAME [length (heap p)]],
     Some Created).
Proof.
  intros Hc Hf Hm. unfold route. run_m. rewrite Hc, Hf, Hm. simpl.
  unfold set_discoveryCache, set_heap; simpl.
  unfold set_discoveryCache, set_heap; simpl.
  by rewrite !alter_snoc.
Qed.

(** [undefined.trim()]: nothing was done yet when the exception leaves. *)
Lemma route_throws k r p :
  discoveryCache p !! generate k = None ->
  find_accessory (heap p) (generate k) (accessories p) = None ->
  model r = None ->
  route k r p = (p, [], None).
Proof. intros Hc Hf Hm. unfold route. run_m. by rewrite Hc, Hf, Hm. Qed.

Lemma goveeDiscoveredReading_resolved r k p :
  resolve r = Some k ->
  goveeDiscoveredReading r p =
    ((route k r p).1.1,
     Log LDebug "Govee reading" [AReading r] :: (route k r p).1.2,
     (route k r p).2).
Proof.
  intros Hr. unfold goveeDiscoveredReading. rewrite Hr. run_m.
  destruct (route k r p) as [[q e] [o|]]; reflexivity.
Qed.

(** On a reading whose model is a string the method returns. *)
Lemma goveeDiscoveredReading_returns r p m :
  model r = Some m -> is_Some (result_of (goveeDiscoveredReading r p)).
Proof.
  intros Hm. destruct (resolve r) as [k|] eqn:Hr.
  2:{ unfold goveeDiscoveredReading. rewrite Hr. run_m. eauto. }
  rewrite (goveeDiscoveredReading_resolved r k p Hr). unfold result_of; simpl.
  destruct (discoveryCache p !! generate k) as [h|] eqn:Hc.
  { rewrite (route_updated k r p h Hc). simpl. eauto. }
  destruct (find_accessory (heap p) (generate k) (accessories p))
    as [[a acc]|] eqn:Hf.
  - rewrite (route_restored k r p a acc Hc Hf). simpl. eauto.
  - rewrite (route_created k r p m Hc Hf Hm). simpl. eauto.
Qed.

End Routing.

(** C7.  A reading whose key is not in the live cache while an accessory
    restored from disk carries it takes the restoring branch: the two
    settings of that accessory are overwritten from the configuration, the
    host is told of the update, the handler is built on that accessory and
    put in the cache; no accessory is allocated and none is registered. *)
Theorem known_device_restored `{Imports} (r : GoveeReading) (p : Platform)
    (k : jsstring) (a : addr) (acc : PlatformAccessory) :
  resolve r = Some k ->
  discoveryCache p !! generate k = None ->
  find_accessory (heap p) (generate k) (accessories p) = Some (a, acc) ->
  result_of (goveeDiscoveredReading r p) = Some Restored
  /\ effects_of (goveeDiscoveredReading r p) =
       [Log LDebug "Govee reading" [AReading r];
        Log LInfo "Restoring existing accessory from cache:" [AStr (displayName acc)];
        UpdatePlatformAccessories [a];
        NewGoveePlatformAccessory a r]
  /\ heap (state_of (goveeDiscoveredReading r p)) !! a =
       Some {| displayName := displayName acc; UUID := UUID acc;
               context :=
                 {| device := device (context acc);
                    ctx_batteryThreshold := batteryThreshold (config p);
                    ctx_humidityOffset := humidityOffset (config p) |} |}
  /\ (forall b, b <> a ->
        heap (state_of (goveeDiscoveredReading r p)) !! b = heap p !! b)
  /\ length (heap (state_of (goveeDiscoveredReading r p))) = length (heap p)
  /\ accessories (state_of (goveeDiscoveredReading r p)) = accessories p
  /\ discoveryCache (state_of (goveeDiscoveredReading r p)) =
       <[generate k := {| accessory := a; reading := r |}]> (discoveryCache p).
Proof.
  intros Hr Hc Hf.
  rewrite (goveeDiscoveredReading_resolved r k p Hr).
  rewrite (route_restored k r p a acc Hc Hf).
  destruct (find_accessory_Some _ _ _ _ _ Hf) as (_ & Ha & _).
  unfold result_of, effects_of, state_of; simpl.
  repeat split.
  - by rewrite list_lookup_alter_eq, Ha.
  - intros b Hb. by apply list_lookup_alter_ne.
  - apply length_alter.
Qed.

Lemma known_device_restored_witness :
  result_of (goveeDiscoveredReading (H := host) govee_reading restarted_platform)
    = Some Restored
  /\ length (heap (state_of (goveeDiscoveredReading (H := host) govee_reading
                               restarted_platform)))
     = length (heap restarted_platform).
Proof.
  pose proof (known_device_restored (H := host) govee_reading restarted_platform
                (js "GVH5075_1234") 0%nat restored_accessory
                eq_refl eq_refl eq_refl) as Hw.
  split; apply Hw.
Defined.




(** Two spellings of a model that [generate] tells apart are two devices:
    the second reading allocates and registers an accessory of its own. *)
Lemma spellings_are_two_devices `{Imports} (c : PlatformConfig) :
  generate (js "ABC_123") <> generate (js " ABC_123 ") ->
  result_of
    (goveeDiscoveredReading (sample_reading None (Some (js " ABC_123 ")))
       (state_of (goveeDiscoveredReading
                    (sample_reading None (Some (js "ABC_123")))
                    (new_platform c))))
  = Some Created.
Proof.
  intros Hne.
  rewrite (goveeDiscoveredReading_resolved
             (sample_reading None (Some (js "ABC_123"))) (js "ABC_123")
             (new_platform c) eq_refl).
  rewrite (route_created (js "ABC_123")
             (sample_reading None (Some (js "ABC_123"))) (new_platform c)
             (js "ABC_123") (lookup_empty _) eq_refl eq_refl).
  unfold state_of; simpl.
  rewrite (goveeDiscoveredReading_resolved
             (sample_reading None (Some (js " ABC_123 "))) (js " ABC_123 ")
             _ eq_refl).
  erewrite (route_created (js " ABC_123 ")
              (sample_reading None (Some (js " ABC_123 "))) _ (js " ABC_123 "));
    [done | | done | done].
  simpl. by rewrite lookup_insert_ne.
Qed.

(** ** The list of ignored names *)



(** ** One handler for each key *)

Section OneHandler.
Context `{Imports}.

Lemma bindings_app u es1 es2 :
  bindings u (es1 ++ es2) = (bindings u es1 + bindings u es2)%nat.
Proof. induction es1 as [|e es1 IH]; simpl; [done|]. rewrite IH. lia. Qed.

Lemma binds_key_resolved u a r k :
  resolve r = Some k ->
  binds_key u (NewGoveePlatformAccessory a r) = bool_decide (generate k = u).
Proof.
  intros Hr. simpl. rewrite Hr. simpl.
  apply bool_decide_ext. split; [by intros [= ->] | by intros ->].
Qed.

(** Routing a reading keeps the handlers that are in the cache and builds
    none for their keys. *)
Lemma goveeDiscoveredReading_keeps r p u h :
  discoveryCache p !! u = Some h ->
  discoveryCache (state_of (goveeDiscoveredReading r p)) !! u = Some h
  /\ bindings u (effects_of (goveeDiscoveredReading r p)) = 0%nat.
Proof.
  intros Hu. destruct (resolve r) as [k|] eqn:Hr.
  2:{ unfold goveeDiscoveredReading. rewrite Hr. by run_m. }
  rewrite (goveeDiscoveredReading_resolved r k p Hr).
  unfold state_of, effects_of; simpl.
  destruct (discoveryCache p !! generate k) as [h'|] eqn:Hc.
  { by rewrite (route_updated k r p h' Hc). }
  assert (generate k <> u) as Hne by (intros Heq; rewrite Heq in Hc; congruence).
  destruct (find_accessory (heap p) (generate k) (accessories p))
    as [[a acc]|] eqn:Hf.
  { rewrite (route_restored k r p a acc Hc Hf); simpl.
    rewrite lookup_insert_ne by done.
    rewrite bool_decide_eq_false_2; [done|]. rewrite Hr; simpl. congruence. }
  destruct (model r) as [m|] eqn:Hm.
  - rewrite (route_created k r p m Hc Hf Hm); simpl.
    rewrite lookup_insert_ne by done.
    rewrite bool_decide_eq_false_2; [done|]. rewrite Hr; simpl. congruence.
  - by rewrite (route_throws k r p Hc Hf Hm).
Qed.

(** So does every other call into the platform. *)
Lemma handle_keeps e p u h :
  discoveryCache p !! u = Some h ->
  discoveryCache (state_of (handle e p)) !! u = Some h
  /\ bindings u (effects_of (handle e p)) = 0%nat.
Proof.
  intros Hu. destruct e as [| |acc|r| | |i].
  - unfold handle, didFinishLaunching, discoverDevices, startScanCycle. run_m.
    destruct (debug (config p)); simpl;
      destruct (0 <? scanDuration (config p)); simpl; done.
  - by unfold handle, shutdown; run_m.
  - by unfold handle, configureAccessory; run_m.
  - destruct (goveeDiscoveredReading_keeps r p u h Hu) as [Hs He].
    unfold handle, bind, ret, state_of, effects_of in *.
    destruct (goveeDiscoveredReading r p) as [[q e] [o|]]; simpl in *;
      [by rewrite app_nil_r | done].
  - by unfold handle, goveeScanStarted; run_m.
  - unfold handle, goveeScanStopped. run_m.
    destruct (running p); simpl; [|done].
    case_bool_decide; simpl; done.
  - unfold handle. run_m.
    destruct (timers p !! i) as [[[| |] ms]|]; simpl; [| | |done].
    + by unfold fire, scanDurationElapsed; run_m.
    + unfold fire, cooldownElapsed, startScanCycle. run_m.
      destruct (0 <? scanDuration (config p)); simpl; done.
    + unfold fire, stallRecovery, running. run_m.
      destruct (platformStatus p) as [[|]|]; simpl; done.
Qed.

Lemma run_keeps es p u h :
  discoveryCache p !! u = Some h ->
  discoveryCache (run es p).1 !! u = Some h
  /\ bindings u (run es p).2 = 0%nat.
Proof.
  revert p. induction es as [|e es IH]; intros p Hu; simpl; [done|].
  destruct (handle_keeps e p u h Hu) as [Hs He].
  destruct (IH _ Hs) as [Hs' He'].
  split; [done|]. rewrite bindings_app. lia.
Qed.


End OneHandler.



(** ** The scan cycle *)

(** The third branch of [goveeScanStopped]. *)
Lemma goveeScanStopped_stall (p : Platform) :
  running p = true ->
  isCooldown p <> Some true ->
  goveeScanStopped p =
    (set_timers (timers p ++ [(StallRecovery, WAIT_INTERVAL)]) p,
     [Log LInfo "Govee Scan Stopped" []; SetTimeout StallRecovery WAIT_INTERVAL],
     Some tt).
Proof.
  intros Hrun Hcool. unfold goveeScanStopped. run_m. rewrite Hrun. simpl.
  by rewrite bool_decide_eq_false_2.
Qed.

(** C9.  When the scan stops while the platform runs and no cooldown is
    pending, [goveeScanStopped] arms one timer, of 5000 ms whatever the
    configuration.  When that timer fires it reads [platformStatus] again:
    on a running platform it logs a warning and calls the start of
    discovery of the radio library, and neither of the two registrations
    of callbacks; otherwise it does nothing.  The platform is the same
    after it. *)
Theorem unsolicited_stop_arms_recovery (p q : Platform) :
  running p = true ->
  isCooldown p <> Some true ->
  goveeScanStopped p =
    (set_timers (timers p ++ [(StallRecovery, 5000)]) p,
     [Log LInfo "Govee Scan Stopped" []; SetTimeout StallRecovery 5000],
     Some tt)
  /\ fire StallRecovery q =
     if running q
     then (q, [Log LWarn "Govee discovery stopped while Homebridge is running." [];
               Log LInfo "Restart Discovery" [];
               GoveeStartDiscovery],
           Some tt)
     else (q, [], Some tt).
Proof.
  intros Hrun Hcool. split.
  - by apply goveeScanStopped_stall.
  - unfold fire, stallRecovery. run_m. by destruct (running q).
Qed.

Lemma unsolicited_stop_arms_recovery_witness :
  timers (state_of (goveeScanStopped restarted_platform)) = [(StallRecovery, 5000)]
  /\ effects_of (fire StallRecovery restarted_platform) =
     [Log LWarn "Govee discovery stopped while Homebridge is running." [];
      Log LInfo "Restart Discovery" [];
      GoveeStartDiscovery].
Proof.
  assert (isCooldown restarted_platform <> Some true) as Hc by discriminate.
  destruct (unsolicited_stop_arms_recovery restarted_platform restarted_platform
              eq_refl Hc) as [Hs Hf].
  rewrite Hs, Hf. split; reflexivity.
Defined.

Section Continuous.
Context `{Imports}.

Lemma goveeDiscoveredReading_frame r p :
  config (state_of (goveeDiscoveredReading r p)) = config p
  /\ isCooldown (state_of (goveeDiscoveredReading r p)) = isCooldown p
  /\ timers (state_of (goveeDiscoveredReading r p)) = timers p
  /\ platformStatus (state_of (goveeDiscoveredReading r p)) = platformStatus p
  /\ Forall (fun e => duty_effect e = false)
       (effects_of (goveeDiscoveredReading r p)).
Proof.
  unfold goveeDiscoveredReading, route. run_m.
  destruct (resolve r); simpl; [|by repeat constructor].
  destruct (discoveryCache p !! _); simpl; [by repeat constructor|].
  destruct (find_accessory _ _ _) as [[? ?]|]; simpl; [by repeat constructor|].
  destruct (model r); simpl; by repeat constructor.
Qed.

Lemma handle_continuous e p :
  continuous p ->
  continuous (state_of (handle e p))
  /\ Forall (fun x => duty_effect x = false) (effects_of (handle e p)).
Proof.
  intros (Hd & Hc & Ht). unfold continuous.
  destruct e as [| |acc|r| | |i].
  - unfold handle, didFinishLaunching, discoverDevices, startScanCycle. run_m.
    destruct (debug (config p)); simpl; rewrite Hd; simpl; by repeat constructor.
  - unfold handle, shutdown. run_m. by repeat constructor.
  - unfold handle, configureAccessory. run_m. by repeat constructor.
  - destruct (goveeDiscoveredReading_frame r p) as (Ec & Ei & Et & _ & Ee).
    unfold handle, bind, ret, state_of, effects_of in *.
    destruct (goveeDiscoveredReading r p) as [[q e] [o|]]; simpl in *;
      rewrite ?app_nil_r, Ec, Ei, Et; done.
  - unfold handle, goveeScanStarted. run_m. by repeat constructor.
  - unfold handle, goveeScanStopped. run_m.
    destruct (running p); simpl; [|by repeat constructor].
    rewrite bool_decide_eq_false_2 by done. simpl.
    repeat split; try done; [|by repeat constructor].
    apply Forall_app. split; [done | by repeat constructor].
  - unfold handle. run_m.
    destruct (timers p !! i) as [[cb ms]|] eqn:Hi; simpl;
      [|by repeat constructor].
    assert (cb = StallRecovery) as ->.
    { eapply Forall_lookup_1 in Ht; [|exact Hi]. exact Ht. }
    unfold fire, stallRecovery, running. run_m.
    destruct (platformStatus p) as [[|]|]; simpl;
      (repeat split; try done; try (by apply Forall_delete); by repeat constructor).
Qed.

Lemma run_continuous es p :
  continuous p ->
  continuous (run es p).1
  /\ Forall (fun x => duty_effect x = false) (run es p).2.
Proof.
  revert p. induction es as [|e es IH]; intros p Hp; simpl; [done|].
  destruct (handle_continuous e p Hp) as [Hs He].
  destruct (IH _ Hs) as [Hs' He'].
  split; [done|]. by apply Forall_app.
Qed.

End Continuous.

(** C8.  With [scanDuration] 0, [startScanCycle] starts the discovery,
    registers the two callbacks and arms no timer; whatever happens to the
    platform, no scan-duration or cooldown timer is ever armed and the
    radio library is never asked to stop, and the cooldown flag is never
    set: a stop of the scan on the running platform arms the recovery timer
    of fixed delay, not the cooldown timer. *)
Theorem continuous_scan_recovers `{Imports} (c : PlatformConfig)
    (es : list Event) (p : Platform) :
  scanDuration c = 0 ->
  p = (run es (new_platform c)).1 ->
  startScanCycle p =
    (p, [GoveeStartDiscovery; GoveeRegisterScanStart; GoveeRegisterScanStop],
     Some tt)
  /\ Forall (fun x => duty_effect x = false) (run es (new_platform c)).2
  /\ Forall (fun t => t.1 = StallRecovery) (timers p)
  /\ isCooldown p <> Some true
  /\ (running p = true ->
      goveeScanStopped p =
        (set_timers (timers p ++ [(StallRecovery, WAIT_INTERVAL)]) p,
         [Log LInfo "Govee Scan Stopped" [];
          SetTimeout StallRecovery WAIT_INTERVAL],
         Some tt)).
Proof.
  intros Hc ->.
  assert (continuous (new_platform c)) as Hinit.
  { repeat split; [done | discriminate | constructor]. }
  destruct (run_continuous es _ Hinit) as [(Hd & Hi & Ht) He].
  split.
  { unfold startScanCycle. run_m. by rewrite Hd. }
  repeat split; try done.
  intros Hrun. by apply goveeScanStopped_stall.
Qed.

Lemma continuous_scan_recovers_witness :
  effects_of
    (goveeScanStopped
       (run (H := host) [DidFinishLaunching; Reading govee_reading]
          (new_platform (sample_config 0 0 []))).1)
  = [Log LInfo "Govee Scan Stopped" []; SetTimeout StallRecovery 5000].
Proof.
  destruct (continuous_scan_recovers (H := host) (sample_config 0 0 [])
              [DidFinishLaunching; Reading govee_reading]
              (run (H := host) [DidFinishLaunching; Reading govee_reading]
                 (new_platform (sample_config 0 0 []))).1
              eq_refl eq_refl)
    as (_ & _ & _ & _ & Hw).
  rewrite (Hw eq_refl). reflexivity.
Defined.

(** ** Timers that fire after the shutdown *)

(** C3 at the inputs where the code departs from it.  After the shutdown
    the cooldown timer that fires clears the cooldown flag and starts a
    scan cycle (discovery started, callbacks registered, a scan-duration
    timer armed); the scan-duration timer that fires sets the cooldown
    flag and asks the radio library to stop; only the recovery timer does
    nothing. *)
Theorem timers_act_after_shutdown :
  running shut_down_in_cooldown = false
  /\ timers shut_down_in_cooldown = [(CooldownElapsed, 500)]
  /\ handle (H := host) (TimerFires 0) shut_down_in_cooldown =
     (set_timers [(ScanDurationElapsed, 1000)]
        (set_isCooldown (Some false) shut_down_in_cooldown),
      [GoveeStartDiscovery; GoveeRegisterScanStart; GoveeRegisterScanStop;
       Log LDebug "Stop scanning after " [ANum 1000];
       SetTimeout ScanDurationElapsed 1000],
      Some tt)
  /\ running shut_down_in_scan = false
  /\ timers shut_down_in_scan = [(ScanDurationElapsed, 1000)]
  /\ isCooldown shut_down_in_scan = Some false
  /\ handle (H := host) (TimerFires 0) shut_down_in_scan =
     (set_timers [] (set_isCooldown (Some true) shut_down_in_scan),
      [Log LDebug "Start cooldown for " [ANum 500]; GoveeStopDiscovery],
      Some tt)
  /\ fire StallRecovery shut_down_in_scan = (shut_down_in_scan, [], Some tt).
Proof. repeat split. Qed.


(** * Further properties *)

(** ** Strings *)

Lemma trim_start_split s : exists a, s = a ++ trim_start s /\ blank a.
Proof.
  induction s as [|c s (a & Hs & Ha)]; simpl.
  - exists []. split; [done | constructor].
  - destruct (is_white_space c) eqn:Hc.
    + exists (c :: a). split; [by rewrite <- app_comm_cons, <- Hs | by constructor].
    + exists []. split; [done | constructor].
Qed.

Lemma trim_end_split s : exists b, s = trim_end s ++ b /\ blank b.
Proof.
  destruct (trim_start_split (reverse s)) as (a & Hs & Ha).
  exists (reverse a). split; [|by apply Forall_reverse].
  unfold trim_end. rewrite <- reverse_app, <- Hs. by rewrite reverse_involutive.
Qed.

Lemma trim_start_blank s : blank s -> trim_start s = [].
Proof. induction 1 as [|c s Hc _ IH]; simpl; [done | by rewrite Hc]. Qed.

(** [trim] takes white space off the two ends and nothing else. *)
Lemma trim_split (s : jsstring) :
  exists a b, s = a ++ trim s ++ b /\ blank a /\ blank b.
Proof.
  destruct (trim_start_split s) as (a & Hs & Ha).
  destruct (trim_end_split (trim_start s)) as (b & Ht & Hb).
  exists a, b. repeat split; try done.
  unfold trim. by rewrite <- Ht.
Qed.

(** [replace("_", "")] takes out the first underscore, if there is one. *)
Lemma replace_underscore_split t :
  ((underscore ∉ t) /\ replace (js "_") (js "") t = t)
  \/ exists t1 t2, t = t1 ++ underscore :: t2 /\ (underscore ∉ t1)
                   /\ replace (js "_") (js "") t = t1 ++ t2.
Proof.
  induction t as [|d t IH].
  { left. split; [apply not_elem_of_nil | done]. }
  rewrite replace_underscore_cons.
  destruct (N.eqb_spec underscore d) as [<-|Hne].
  { right. exists [], t. split; [done|]. split; [apply not_elem_of_nil | done]. }
  destruct IH as [[Hn ->]|(t1 & t2 & -> & Hn & ->)].
  - left. split; [|done]. intros [?|?]%elem_of_cons; done.
  - right. exists (d :: t1), t2. split; [done|]. split; [|done].
    intros [?|?]%elem_of_cons; done.
Qed.

(** X1.  What [sanitize] does to a string: it takes the white space off
    its two ends, and out of what is left, which neither starts nor ends
    with white space, the first underscore if there is one; every other
    code unit is kept, in order. *)
Theorem sanitize_takes_ends_and_first_underscore (s : jsstring) :
  exists a t b,
    s = a ++ t ++ b /\ blank a /\ blank b
    /\ white (head t) = false /\ white (last t) = false
    /\ (((underscore ∉ t) /\ sanitize s = t)
        \/ exists t1 t2, t = t1 ++ underscore :: t2 /\ (underscore ∉ t1)
                         /\ sanitize s = t1 ++ t2).
Proof.
  destruct (trim_split s) as (a & b & Hs & Ha & Hb).
  destruct (trim_ends s) as [Hh Hl].
  exists a, (trim s), b. repeat split; try done.
  apply replace_underscore_split.
Qed.

Lemma replace_underscore_count t c :
  count_occ N.eq_dec (replace (js "_") (js "") t) c =
  if decide (c = underscore) then Nat.pred (count_occ N.eq_dec t underscore)
  else count_occ N.eq_dec t c.
Proof.
  destruct (decide (c = underscore)) as [->|Hc].
  - induction t as [|d t IH]; [done|].
    rewrite replace_underscore_cons.
    destruct (N.eqb_spec underscore d) as [<-|Hne].
    + by rewrite count_occ_cons_eq.
    + rewrite !count_occ_cons_neq by congruence. exact IH.
  - induction t as [|d t IH]; [done|].
    rewrite replace_underscore_cons.
    destruct (N.eqb_spec underscore d) as [<-|Hne].
    + by rewrite count_occ_cons_neq by congruence.
    + destruct (decide (d = c)) as [->|Hd].
      * rewrite !count_occ_cons_eq by done. by rewrite IH.
      * rewrite !count_occ_cons_neq by done. exact IH.
Qed.

Lemma replace_underscore_length t :
  length (replace (js "_") (js "") t) =
  (length t - if decide (underscore ∈ t) then 1 else 0)%nat.
Proof.
  induction t as [|d t IH]; [by case_decide|].
  rewrite replace_underscore_cons.
  destruct (N.eqb_spec underscore d) as [<-|Hne].
  - rewrite decide_True by left. simpl. lia.
  - simpl. rewrite IH. case_decide as Hin.
    + rewrite decide_True by (by right).
      destruct t; [by apply elem_of_nil in Hin | simpl; lia].
    + rewrite decide_False; [lia|].
      intros [?|?]%elem_of_cons; done.
Qed.

(** X2.  [sanitize] removes one underscore of the trimmed string, the first,
    and keeps every other code unit: the result counts one underscore less
    (none less when there is none) and as many of any other code unit, and
    is shorter by one exactly when the trimmed string holds an
    underscore. *)
Theorem sanitize_removes_one_underscore (s : jsstring) (c : N) :
  count_occ N.eq_dec (sanitize s) c =
    (if decide (c = underscore)
     then Nat.pred (count_occ N.eq_dec (trim s) underscore)
     else count_occ N.eq_dec (trim s) c)
  /\ length (sanitize s) =
     (length (trim s) - if decide (underscore ∈ trim s) then 1 else 0)%nat.
Proof.
  unfold sanitize. split;
    [apply replace_underscore_count | apply replace_underscore_length].
Qed.

(** X3.  A string of white space only, the empty string among them, is
    sanitized to the empty string. *)
Theorem sanitize_blank (s : jsstring) :
  blank s -> sanitize s = [].
Proof.
  intros Hs. unfold sanitize, trim. by rewrite trim_start_blank.
Qed.

Lemma sanitize_blank_witness : sanitize (js "   ") = [].
Proof. apply sanitize_blank. repeat constructor. Defined.

(** ** The ways a reading is routed *)

Section Outcomes_facts.
Context `{Imports}.

Lemma routed r p : Routed r p (goveeDiscoveredReading r p).
Proof.
  destruct (resolve r) as [k|] eqn:Hr.
  2:{ replace (goveeDiscoveredReading r p) with
        (p, [Log LDebug "Govee reading" [AReading r];
             Log LError "device missing unique identifier. Govee reading: "
               [AReading r]], Some Rejected).
      - by constructor.
      - unfold goveeDiscoveredReading. by rewrite Hr. }
  rewrite (goveeDiscoveredReading_resolved r k p Hr).
  destruct (discoveryCache p !! generate k) as [h|] eqn:Hc.
  { rewrite (route_updated k r p h Hc). by eapply routed_updated. }
  destruct (find_accessory (heap p) (generate k) (accessories p))
    as [[a acc]|] eqn:Hf.
  { rewrite (route_restored k r p a acc Hc Hf). by eapply routed_restored. }
  destruct (model r) as [m|] eqn:Hm.
  - rewrite (route_created k r p m Hc Hf Hm). by eapply routed_created.
  - rewrite (route_throws k r p Hc Hf Hm). by eapply routed_threw.
Qed.

Lemma run_cons e es p :
  run (e :: es) p =
    ((run es (state_of (handle e p))).1,
     effects_of (handle e p) ++ (run es (state_of (handle e p))).2).
Proof. reflexivity. Qed.

Lemma handle_reading r p :
  state_of (handle (Reading r) p) = state_of (goveeDiscoveredReading r p)
  /\ effects_of (handle (Reading r) p) = effects_of (goveeDiscoveredReading r p).
Proof.
  unfold handle, bind, ret, state_of, effects_of.
  destruct (goveeDiscoveredReading r p) as [[q e] [o|]]; simpl;
    by rewrite ?app_nil_r.
Qed.

(** The calls of the lifecycle, of the radio library and of the timers
    leave the registry and the handlers alone. *)
Lemma handle_scheduler e p :
  is_discovery e = false ->
  same_store p (state_of (handle e p))
  /\ Forall (fun x => store_effect x = false) (effects_of (handle e p)).
Proof.
  unfold same_store.
  destruct e as [| |acc|r| | |i]; intros He; try discriminate He; clear He.
  - unfold handle, didFinishLaunching, discoverDevices, startScanCycle. run_m.
    destruct (debug (config p)); simpl;
      destruct (0 <? scanDuration (config p)); simpl; by repeat constructor.
  - unfold handle, shutdown. run_m. by repeat constructor.
  - unfold handle, goveeScanStarted. run_m. by repeat constructor.
  - unfold handle, goveeScanStopped. run_m.
    destruct (running p); simpl; [|by repeat constructor].
    case_bool_decide; simpl; by repeat constructor.
  - unfold handle. run_m.
    destruct (timers p !! i) as [[[| |] ms]|]; simpl; [| | |by repeat constructor].
    + unfold fire, scanDurationElapsed. run_m. by repeat constructor.
    + unfold fire, cooldownElapsed, startScanCycle. run_m.
      destruct (0 <? scanDuration (config p)); simpl; by repeat constructor.
    + unfold fire, stallRecovery, running. run_m.
      destruct (platformStatus p) as [[|]|]; simpl; by repeat constructor.
Qed.

Lemma handle_configureAccessory acc p :
  handle (ConfigureAccessory acc) p =
    (set_accessories (accessories p ++ [length (heap p)])
       (set_heap (heap p ++ [acc]) p),
     [Log LInfo "Loading accessory from cache:" [AStr (displayName acc)]],
     Some tt).
Proof. reflexivity. Qed.

End Outcomes_facts.

(** X4.  A reading is routed without a look at the schedule: the timers, the
    cooldown flag, the status, the configuration and the list of restored
    accessories are as before (an accessory allocated for a new device is
    not added to that list), no timer is armed and the radio library is
    not called. *)
Theorem reading_leaves_schedule_alone `{Imports} (r : GoveeReading)
    (p : Platform) :
  timers (state_of (goveeDiscoveredReading r p)) = timers p
  /\ isCooldown (state_of (goveeDiscoveredReading r p)) = isCooldown p
  /\ platformStatus (state_of (goveeDiscoveredReading r p)) = platformStatus p
  /\ config (state_of (goveeDiscoveredReading r p)) = config p
  /\ accessories (state_of (goveeDiscoveredReading r p)) = accessories p
  /\ Forall (fun e => radio_or_timer e = false)
       (effects_of (goveeDiscoveredReading r p)).
Proof.
  destruct (routed r p); unfold state_of, effects_of; simpl;
    by repeat constructor.
Qed.

(** X5.  A reading that carries a uuid and no model, for a device that is
    neither in the cache nor among the restored accessories, makes the
    method throw after its first log line: nothing is allocated,
    registered or cached, and the same holds however often the reading
    comes again. *)
Theorem new_device_without_model_throws `{Imports} (r : GoveeReading)
    (p : Platform) (k : jsstring) (n : nat) :
  model r = None ->
  uuid r = Some k ->
  k <> [] ->
  discoveryCache p !! generate k = None ->
  find_accessory (heap p) (generate k) (accessories p) = None ->
  goveeDiscoveredReading r p =
    (p, [Log LDebug "Govee reading" [AReading r]], None)
  /\ (run (replicate n (Reading r)) p).1 = p
  /\ Forall (fun e => store_effect e = false)
       (run (replicate n (Reading r)) p).2.
Proof.
  intros Hm Hu Hk Hc Hf.
  assert (resolve r = Some k) as Hr.
  { rewrite resolve_cases, Hm, Hu. simpl. by destruct k. }
  assert (goveeDiscoveredReading r p =
            (p, [Log LDebug "Govee reading" [AReading r]], None)) as Hthrow.
  { rewrite (goveeDiscoveredReading_resolved r k p Hr).
    by rewrite (route_throws k r p Hc Hf Hm). }
  split; [done|].
  induction n as [|n [IHs IHe]]; [by split|].
  change (replicate (S n) (Reading r)) with (Reading r :: replicate n (Reading r)).
  rewrite run_cons.
  destruct (handle_reading r p) as [Es Ee].
  rewrite Es, Ee, Hthrow. unfold state_of, effects_of; simpl.
  split; [done|]. by constructor.
Qed.

Lemma new_device_without_model_throws_witness :
  result_of (goveeDiscoveredReading (H := host)
               (sample_reading (Some (js "a4c138251234")) None)
               (new_platform (sample_config 0 0 []))) = None.
Proof.
  pose proof (new_device_without_model_throws (H := host)
                (sample_reading (Some (js "a4c138251234")) None)
                (new_platform (sample_config 0 0 [])) (js "a4c138251234") 2
                eq_refl eq_refl) as Hw.
  destruct Hw as [Hw _]; [discriminate | reflexivity | reflexivity |].
  by rewrite Hw.
Defined.

(** ** The accessories and the cache over time *)

Lemma settings_only_refl c acc : settings_only c acc acc.
Proof. unfold settings_only. repeat split. by left. Qed.

Lemma settings_only_trans c x y z :
  settings_only c x y -> settings_only c y z -> settings_only c x z.
Proof.
  intros (Hd & Hu & Hv & Hs) (Hd' & Hu' & Hv' & Hs').
  unfold settings_only. repeat split; try congruence.
  destruct Hs' as [Heq|Hc]; [|by right].
  rewrite Heq. exact Hs.
Qed.

Lemma settings_only_refreshed c acc : settings_only c acc (refreshed c acc).
Proof. unfold settings_only, refreshed; simpl. repeat split. by right. Qed.

Lemma tally_app f es1 es2 :
  tally f (es1 ++ es2) = (tally f es1 + tally f es2)%nat.
Proof. induction es1 as [|e es1 IH]; simpl; [done|]. rewrite IH. lia. Qed.

Lemma tally_zero f es :
  (forall x, f x = true -> store_effect x = true) ->
  Forall (fun x => store_effect x = false) es ->
  tally f es = 0%nat.
Proof.
  intros Hf. induction 1 as [|e es He _ IH]; simpl; [done|].
  rewrite IH. destruct (f e) eqn:Hfe; [|done].
  apply Hf in Hfe. congruence.
Qed.

Lemma created_uuids_app es1 es2 :
  created_uuids (es1 ++ es2) = created_uuids es1 ++ created_uuids es2.
Proof.
  induction es1 as [|e es1 IH]; simpl; [done|].
  destruct e; simpl; by rewrite ?IH.
Qed.

Lemma created_uuids_none es :
  Forall (fun x => store_effect x = false) es -> created_uuids es = [].
Proof.
  induction 1 as [|e es He _ IH]; simpl; [done|].
  destruct e; simpl in *; done.
Qed.

Section Over_time.
Context `{Imports}.

Lemma handle_heap e p a acc :
  heap p !! a = Some acc ->
  config (state_of (handle e p)) = config p
  /\ exists acc', heap (state_of (handle e p)) !! a = Some acc'
                  /\ settings_only (config p) acc acc'.
Proof.
  intros Ha. destruct (is_discovery e) eqn:He.
  2:{ destruct (handle_scheduler e p He) as [(Ec & _ & _ & Eh) _].
      rewrite Ec, Eh. split; [done|]. exists acc.
      split; [done | apply settings_only_refl]. }
  destruct e as [| |x|r| | |i]; try discriminate He.
  - rewrite handle_configureAccessory. unfold state_of; simpl.
    split; [done|]. exists acc.
    split; [by apply lookup_app_l_Some | apply settings_only_refl].
  - destruct (handle_reading r p) as [-> _].
    destruct (routed r p) as [Hr|k h Hr Hc|k a0 acc0 Hr Hc Hf|k m Hr Hc Hf Hm|k Hr Hc Hf Hm];
      unfold state_of; simpl; (split; [done|]);
      try (exists acc; split; [done | apply settings_only_refl]).
    + destruct (decide (a = a0)) as [->|Hne].
      * exists (refreshed (config p) acc).
        split; [by rewrite list_lookup_alter_eq, Ha | apply settings_only_refreshed].
      * exists acc. split; [by rewrite list_lookup_alter_ne | apply settings_only_refl].
    + exists acc. split; [by apply lookup_app_l_Some | apply settings_only_refl].
Qed.

Lemma handle_cache_bound e p :
  cache_bound p -> cache_bound (state_of (handle e p)).
Proof.
  intros Hb. destruct (is_discovery e) eqn:He.
  2:{ destruct (handle_scheduler e p He) as [(_ & _ & Ec & Eh) _].
      unfold cache_bound. by rewrite Ec, Eh. }
  destruct e as [| |x|r| | |i]; try discriminate He.
  - rewrite handle_configureAccessory. unfold state_of; simpl.
    intros u h Hu. simpl in Hu.
    destruct (Hb u h Hu) as (acc & k & Ha & ?). exists acc, k.
    split; [by apply lookup_app_l_Some | done].
  - destruct (handle_reading r p) as [-> _].
    destruct (routed r p) as [Hr|k h Hr Hc|k a0 acc0 Hr Hc Hf|k m Hr Hc Hf Hm|k Hr Hc Hf Hm];
      unfold state_of; simpl; try done.
    + destruct (find_accessory_Some _ _ _ _ _ Hf) as (_ & Ha0 & Hu0).
      intros u h Hu. simpl in *.
      destruct (decide (generate k = u)) as [<-|Hne].
      * rewrite lookup_insert_eq in Hu. injection Hu as <-. simpl.
        exists (refreshed (config p) acc0), k.
        by rewrite list_lookup_alter_eq, Ha0.
      * rewrite lookup_insert_ne in Hu by done.
        destruct (Hb u h Hu) as (acc & k' & Ha & Hacc & Hk).
        destruct (decide (accessory h = a0)) as [Heq|Hna].
        -- exists (refreshed (config p) acc), k'.
           by rewrite Heq, list_lookup_alter_eq, <- Heq, Ha.
        -- exists acc, k'. by rewrite list_lookup_alter_ne.
    + intros u h Hu. simpl in *.
      destruct (decide (generate k = u)) as [<-|Hne].
      * rewrite lookup_insert_eq in Hu. injection Hu as <-. simpl.
        exists (fresh_accessory (config p) (generate k) m r), k.
        by rewrite list_lookup_middle.
      * rewrite lookup_insert_ne in Hu by done.
        destruct (Hb u h Hu) as (acc & k' & Ha & ?). exists acc, k'.
        split; [by apply lookup_app_l_Some | done].
Qed.

Lemma handle_tally e p :
  size (discoveryCache (state_of (handle e p))) =
    (size (discoveryCache p) + tally is_new_handler (effects_of (handle e p)))%nat
  /\ tally is_new_handler (effects_of (handle e p)) =
     (tally is_register (effects_of (handle e p))
      + tally is_update (effects_of (handle e p)))%nat.
Proof.
  destruct (is_discovery e) eqn:He.
  2:{ destruct (handle_scheduler e p He) as [(_ & _ & Ec & _) Hs].
      rewrite Ec.
      rewrite (tally_zero is_new_handler _ ltac:(by intros []) Hs).
      rewrite (tally_zero is_register _ ltac:(by intros []) Hs).
      rewrite (tally_zero is_update _ ltac:(by intros []) Hs). lia. }
  destruct e as [| |x|r| | |i]; try discriminate He.
  - rewrite handle_configureAccessory. unfold state_of, effects_of; simpl. lia.
  - destruct (handle_reading r p) as [-> ->].
    destruct (routed r p) as [Hr|k h Hr Hc|k a0 acc0 Hr Hc Hf|k m Hr Hc Hf Hm|k Hr Hc Hf Hm];
      unfold state_of, effects_of; simpl;
      rewrite ?map_size_insert_None by done; lia.
Qed.

Lemma handle_created e p :
  created_uuids (effects_of (handle e p)) = []
  \/ exists u,
       created_uuids (effects_of (handle e p)) = [u]
       /\ discoveryCache p !! u = None
       /\ find_accessory (heap p) u (accessories p) = None
       /\ is_Some (discoveryCache (state_of (handle e p)) !! u).
Proof.
  destruct (is_discovery e) eqn:He.
  2:{ destruct (handle_scheduler e p He) as [_ Hs].
      left. by apply created_uuids_none. }
  destruct e as [| |x|r| | |i]; try discriminate He.
  - left. by rewrite handle_configureAccessory.
  - destruct (handle_reading r p) as [-> ->].
    destruct (routed r p) as [Hr|k h Hr Hc|k a0 acc0 Hr Hc Hf|k m Hr Hc Hf Hm|k Hr Hc Hf Hm];
      unfold state_of, effects_of; simpl; try (by left).
    right. exists (generate k). repeat split; try done.
    rewrite lookup_insert_eq. eauto.
Qed.

End Over_time.

(** X6.  Whatever is delivered to the platform, an accessory of the heap stays
    where it is and keeps its name, its UUID and its device record; only
    its two settings may change, and then they are those of the
    configuration, which never changes. *)
Theorem accessories_keep_identity `{Imports} (es : list Event) (p : Platform)
    (a : addr) (acc : PlatformAccessory) :
  heap p !! a = Some acc ->
  config (run es p).1 = config p
  /\ exists acc', heap (run es p).1 !! a = Some acc'
                  /\ settings_only (config p) acc acc'.
Proof.
  revert p acc. induction es as [|e es IH]; intros p acc Ha.
  - simpl. split; [done|]. exists acc. split; [done | apply settings_only_refl].
  - rewrite run_cons. simpl.
    destruct (handle_heap e p a acc Ha) as (Ec & acc1 & Ha1 & Hs1).
    destruct (IH _ acc1 Ha1) as (Ec' & acc2 & Ha2 & Hs2).
    rewrite Ec in Ec', Hs2. split; [done|]. exists acc2.
    split; [done | by eapply settings_only_trans].
Qed.

Lemma accessories_keep_identity_witness :
  exists acc',
    heap (run (H := host) [Reading govee_reading; Shutdown] restarted_platform).1
      !! 0%nat = Some acc'
    /\ UUID acc' = UUID restored_accessory.
Proof.
  destruct (accessories_keep_identity (H := host)
              [Reading govee_reading; Shutdown] restarted_platform 0%nat
              restored_accessory eq_refl) as (_ & acc' & Ha & _ & Hu & _).
  exists acc'. by split.
Defined.

(** X7.  From the platform the constructor leaves, whatever is delivered,
    every handler of the cache is bound to an accessory of the heap whose
    UUID is the key of the handler, and this key is the one generated from
    the identifier of the reading the handler was built from. *)
Theorem cache_entries_bound `{Imports} (c : PlatformConfig) (es : list Event) :
  cache_bound (run es (new_platform c)).1.
Proof.
  assert (forall es p, cache_bound p -> cache_bound (run es p).1) as Hgen.
  { clear es. induction es as [|e es IH]; intros p Hp; [done|].
    rewrite run_cons. simpl. by apply IH, handle_cache_bound. }
  apply Hgen. intros u h Hu. simpl in Hu. by rewrite lookup_empty in Hu.
Qed.

(** X8.  Handlers and cache entries go together: over any run the cache grows
    by one entry for each handler built and never shrinks, and each
    handler built comes with one call of the host, a registration (new
    device) or an update (restored device). *)
Theorem handlers_match_cache `{Imports} (es : list Event) (p : Platform) :
  size (discoveryCache (run es p).1) =
    (size (discoveryCache p) + tally is_new_handler (run es p).2)%nat
  /\ tally is_new_handler (run es p).2 =
     (tally is_register (run es p).2 + tally is_update (run es p).2)%nat.
Proof.
  revert p. induction es as [|e es IH]; intros p; [simpl; lia|].
  rewrite run_cons. simpl. rewrite !tally_app.
  destruct (handle_tally e p) as [Hs Ht].
  destruct (IH (state_of (handle e p))) as [Hs' Ht']. lia.
Qed.

(** X9.  No UUID is given to two accessories that the platform allocates: the
    UUIDs allocated over a run are pairwise different, none of them was in
    the cache at the start, and each is in the cache at the end. *)
Theorem no_uuid_allocated_twice `{Imports} (es : list Event) (p : Platform) :
  NoDup (created_uuids (run es p).2)
  /\ forall u, u ∈ created_uuids (run es p).2 ->
       discoveryCache p !! u = None
       /\ is_Some (discoveryCache (run es p).1 !! u).
Proof.
  revert p. induction es as [|e es IH]; intros p.
  { simpl. split; [constructor | by intros u ?%elem_of_nil]. }
  rewrite run_cons. simpl. rewrite created_uuids_app.
  destruct (IH (state_of (handle e p))) as [Hnd Hin].
  assert (forall u, u ∈ created_uuids (run es (state_of (handle e p))).2 ->
            discoveryCache p !! u = None) as Hold.
  { intros u Hu. destruct (Hin u Hu) as [Hn _].
    destruct (discoveryCache p !! u) as [h|] eqn:Hp; [|done].
    destruct (handle_keeps e p u h Hp) as [Hk _]. congruence. }
  destruct (handle_created e p) as [->|(u0 & -> & Hc & _ & [h0 Hs])]; simpl.
  { split; [done|]. intros u Hu. split; [by apply Hold | by apply Hin]. }
  split.
  - constructor; [|done]. intros Hu. destruct (Hin u0 Hu) as [Hn _]. congruence.
  - intros u [->|Hu]%elem_of_cons.
    + split; [done|]. destruct (run_keeps es _ u0 h0 Hs) as [-> _]. eauto.
    + split; [by apply Hold | by apply Hin].
Qed.

(** ** Restored accessories *)

Lemma find_accessory_None h u l :
  find_accessory h u l = None ->
  forall a acc, a ∈ l -> h !! a = Some acc -> UUID acc <> u.
Proof.
  induction l as [|b l IH]; simpl; intros Hf a acc Hin Ha.
  { by apply elem_of_nil in Hin. }
  apply elem_of_cons in Hin as [->|Hin].
  - rewrite Ha in Hf. case_bool_decide; [discriminate | done].
  - destruct (h !! b) as [x|]; [case_bool_decide; [discriminate|]|]; by eapply IH.
Qed.

(** An accessory handed over with a UUID that no accessory of the list
    carries is the one a later look-up finds. *)
Lemma find_accessory_snoc h u l acc :
  find_accessory h u l = None ->
  UUID acc = u ->
  find_accessory (h ++ [acc]) u (l ++ [length h]) = Some (length h, acc).
Proof.
  intros Hf Hu. induction l as [|b l IH]; simpl.
  - rewrite list_lookup_middle by done. by rewrite bool_decide_eq_true_2.
  - simpl in Hf. destruct (h !! b) as [x|] eqn:Hb.
    + rewrite (lookup_app_l_Some _ _ _ _ Hb).
      case_bool_decide; [discriminate | by apply IH].
    + apply lookup_ge_None in Hb.
      destruct (decide (b = length h)) as [->|Hne].
      * rewrite list_lookup_middle by done. by rewrite bool_decide_eq_true_2.
      * rewrite lookup_ge_None_2 by (rewrite length_app; simpl; lia).
        by apply IH.
Qed.

(** A match stays a match when the heap keeps its accessories with their
    UUIDs and the list is extended. *)
Lemma find_accessory_mono h h' u l l' :
  (forall a y, h !! a = Some y -> exists y', h' !! a = Some y' /\ UUID y' = UUID y) ->
  is_Some (find_accessory h u l) ->
  is_Some (find_accessory h' u (l ++ l')).
Proof.
  intros Hh. induction l as [|b l IH]; simpl; [by intros [? ?]|].
  destruct (h !! b) as [y|] eqn:Hb.
  - destruct (Hh b y Hb) as (y' & -> & Hu). rewrite Hu.
    case_bool_decide; [eauto | exact IH].
  - intros Hs. specialize (IH Hs).
    destruct (h' !! b) as [y'|]; [case_bool_decide; eauto | done].
Qed.

Section Restored_facts.
Context `{Imports}.

Lemma goveeDiscoveredReading_accessories r p :
  accessories (state_of (goveeDiscoveredReading r p)) = accessories p.
Proof. by destruct (routed r p). Qed.

Lemma handle_restored_stays e p u :
  is_Some (find_accessory (heap p) u (accessories p)) ->
  is_Some (find_accessory (heap (state_of (handle e p))) u
             (accessories (state_of (handle e p))))
  /\ u ∉ created_uuids (effects_of (handle e p)).
Proof.
  intros Hs. split.
  - assert (exists l', accessories (state_of (handle e p)) = accessories p ++ l')
      as [l' ->].
    { destruct (is_discovery e) eqn:He.
      2:{ destruct (handle_scheduler e p He) as [(_ & -> & _) _].
          exists []. by rewrite app_nil_r. }
      destruct e as [| |x|r| | |i]; try discriminate He.
      - rewrite handle_configureAccessory. unfold state_of; simpl. eauto.
      - destruct (handle_reading r p) as [-> _].
        rewrite goveeDiscoveredReading_accessories.
        exists []. by rewrite app_nil_r. }
    eapply find_accessory_mono; [|exact Hs].
    intros a y Ha. destruct (handle_heap e p a y Ha) as (_ & y' & Hy & _ & Hu & _).
    eauto.
  - destruct (handle_created e p) as [->|(u0 & -> & _ & Hf & _)].
    + apply not_elem_of_nil.
    + intros ->%list_elem_of_singleton. rewrite Hf in Hs. by destruct Hs.
Qed.

End Restored_facts.

(** X10.  The UUID of an accessory restored from disk is never allocated again:
    while the accessory is in the list, whatever is delivered, no accessory
    is created (and registered) with its UUID. *)
Theorem restored_uuid_never_registered `{Imports} (es : list Event)
    (p : Platform) (u : jsstring) :
  is_Some (find_accessory (heap p) u (accessories p)) ->
  u ∉ created_uuids (run es p).2.
Proof.
  revert p. induction es as [|e es IH]; intros p Hs.
  { simpl. apply not_elem_of_nil. }
  rewrite run_cons. simpl. rewrite created_uuids_app.
  destruct (handle_restored_stays e p u Hs) as [Hs' Hn].
  intros [?|?]%elem_of_app; [done|]. by eapply IH.
Qed.

Lemma restored_uuid_never_registered_witness :
  js "GVH5075_1234" ∉
    created_uuids
      (run (H := host)
         [Reading govee_reading; Reading (sample_reading None (Some (js "H5074_AB")))]
         restarted_platform).2.
Proof.
  apply (restored_uuid_never_registered (H := host)).
  vm_compute. eauto.
Defined.

(** X11.  An accessory that the host hands over is what the first reading of its
    device restores: when no handler and no earlier accessory has the
    UUID, the reading takes the restoring branch, its handler is bound to
    the accessory handed over, and nothing is registered. *)
Theorem configured_accessory_is_restored `{Imports} (r : GoveeReading)
    (p : Platform) (k : jsstring) (acc : PlatformAccessory) :
  resolve r = Some k ->
  UUID acc = generate k ->
  discoveryCache p !! generate k = None ->
  find_accessory (heap p) (generate k) (accessories p) = None ->
  goveeDiscoveredReading r (state_of (configureAccessory acc p)) =
    (set_discoveryCache
       (<[generate k := {| accessory := length (heap p); reading := r |}]>
          (discoveryCache p))
       (set_accessories (accessories p ++ [length (heap p)])
          (set_heap (heap p ++ [refreshed (config p) acc]) p)),
     [Log LDebug "Govee reading" [AReading r];
      Log LInfo "Restoring existing accessory from cache:" [AStr (displayName acc)];
      UpdatePlatformAccessories [length (heap p)];
      NewGoveePlatformAccessory (length (heap p)) r],
     Some Restored).
Proof.
  intros Hr Hu Hc Hf.
  pose proof (find_accessory_snoc _ _ _ acc Hf Hu) as Hfind.
  rewrite (goveeDiscoveredReading_resolved r k _ Hr).
  erewrite route_restored; [| exact Hc | exact Hfind].
  unfold state_of; simpl. unfold set_discoveryCache, set_heap; simpl.
  by rewrite alter_snoc.
Qed.

Lemma configured_accessory_is_restored_witness :
  result_of
    (goveeDiscoveredReading (H := host) govee_reading
       (state_of (configureAccessory restored_accessory
                    (new_platform (sample_config 0 0 [])))))
  = Some Restored.
Proof.
  rewrite (configured_accessory_is_restored (H := host) govee_reading
             (new_platform (sample_config 0 0 [])) (js "GVH5075_1234")
             restored_accessory eq_refl eq_refl eq_refl eq_refl).
  reflexivity.
Defined.


(** ** The schedule over time *)

Section Schedule_facts.
Context `{Imports}.

Lemma handle_status e p :
  is_lifecycle e = false ->
  platformStatus (state_of (handle e p)) = platformStatus p.
Proof.
  destruct e as [| |acc|r| | |i]; intros He; try discriminate He; clear He.
  - by rewrite handle_configureAccessory.
  - destruct (handle_reading r p) as [-> _].
    by destruct (goveeDiscoveredReading_frame r p) as (_ & _ & _ & -> & _).
  - done.
  - unfold handle, goveeScanStopped. run_m.
    destruct (running p); simpl; [|done]. by case_bool_decide.
  - unfold handle. run_m.
    destruct (timers p !! i) as [[[| |] ms]|]; simpl; [| | |done].
    + done.
    + unfold fire, cooldownElapsed, startScanCycle. run_m.
      by destruct (0 <? scanDuration (config p)).
    + unfold fire, stallRecovery, running. run_m.
      destruct (platformStatus p) as [[|]|] eqn:E; simpl; done.
Qed.

Lemma goveeScanStopped_running p :
  running p = true ->
  state_of (goveeScanStopped p) = set_timers (timers p ++ [scan_stop_timer p]) p
  /\ Forall (fun e => e <> GoveeStartDiscovery /\ e <> GoveeStopDiscovery)
       (effects_of (goveeScanStopped p)).
Proof.
  intros Hrun. unfold goveeScanStopped, scan_stop_timer. run_m. rewrite Hrun. simpl.
  case_bool_decide; simpl; (split; [done|]); by repeat constructor.
Qed.

End Schedule_facts.

(** X12.  Once the host has signalled the shutdown, nothing but a new launch
    signal changes the status: whatever else is delivered, readings, scan
    stops, timers that fire, the platform stays shut down. *)
Theorem shutdown_is_final `{Imports} (es : list Event) (p : Platform) :
  DidFinishLaunching ∉ es ->
  platformStatus p = Some SHUTDOWN ->
  platformStatus (run es p).1 = Some SHUTDOWN /\ running (run es p).1 = false.
Proof.
  intros Hes Hp.
  assert (platformStatus (run es p).1 = Some SHUTDOWN) as Hs.
  { revert p Hp. induction es as [|e es IH]; intros p Hp; [done|].
    rewrite run_cons. simpl.
    apply IH; [by intros ?; apply Hes; right|].
    destruct (is_lifecycle e) eqn:He.
    - destruct e; try discriminate He; [exfalso; apply Hes; left | done].
    - by rewrite handle_status. }
  split; [done|]. unfold running. by rewrite Hs.
Qed.

Lemma shutdown_is_final_witness :
  running (run (H := host) [ScanStopped; TimerFires 0; Reading govee_reading]
             shut_down_in_cooldown).1 = false.
Proof.
  apply (shutdown_is_final (H := host)); [|reflexivity].
  intros Hin. repeat (apply elem_of_cons in Hin as [Hin|Hin]; [discriminate|]).
  by apply elem_of_nil in Hin.
Defined.

(** X13.  Stops of the scan are not told apart from one another: on a running
    platform each of [n] stops in a row arms one more timer of the same
    kind (cooldown when the cooldown flag is set, recovery otherwise),
    the flag and the status stay as they are, and the radio library is
    neither started nor stopped meanwhile. *)
Theorem scan_stops_pile_up `{Imports} (n : nat) (p : Platform) :
  running p = true ->
  (run (replicate n ScanStopped) p).1 =
    set_timers (timers p ++ replicate n (scan_stop_timer p)) p
  /\ Forall (fun e => e <> GoveeStartDiscovery /\ e <> GoveeStopDiscovery)
       (run (replicate n ScanStopped) p).2.
Proof.
  revert p. induction n as [|n IH]; intros p Hrun.
  { simpl. split; [|constructor]. destruct p; unfold set_timers; simpl.
    by rewrite app_nil_r. }
  change (replicate (S n) ScanStopped) with (ScanStopped :: replicate n ScanStopped).
  rewrite run_cons.
  change (handle ScanStopped p) with (goveeScanStopped p).
  destruct (goveeScanStopped_running p Hrun) as [-> He].
  destruct (IH (set_timers (timers p ++ [scan_stop_timer p]) p) Hrun) as [-> He'].
  split; [|by apply Forall_app].
  unfold set_timers, scan_stop_timer; simpl.
  by rewrite <- app_assoc.
Qed.

Lemma scan_stops_pile_up_witness :
  timers (run (H := host) (replicate 3 ScanStopped) restarted_platform).1 =
    [(StallRecovery, 5000); (StallRecovery, 5000); (StallRecovery, 5000)].
Proof.
  destruct (scan_stops_pile_up (H := host) 3 restarted_platform eq_refl) as [Hw _].
  rewrite Hw. reflexivity.
Defined.

(** X14.  One turn of the duty cycle.  On a running platform whose only timer is
    the scan-duration timer, with a positive scan duration: the timer
    fires (flag set, stop requested), the scan stops (cooldown timer
    armed), the cooldown timer fires (flag cleared, discovery started,
    callbacks registered anew); the platform is then as before, with the
    next scan-duration timer armed. *)
Theorem duty_cycle_returns `{Imports} (p : Platform) (d : Z) :
  running p = true ->
  isCooldown p = Some false ->
  timers p = [(ScanDurationElapsed, d)] ->
  0 < scanDuration (config p) ->
  run [TimerFires 0; ScanStopped; TimerFires 0] p =
    (set_timers [(ScanDurationElapsed, scanDuration (config p))] p,
     [Log LDebug "Start cooldown for " [ANum (cooldownDuration (config p))];
      GoveeStopDiscovery;
      Log LInfo "Govee Scan Stopped" [];
      Log LDebug "Cooldown started" [];
      SetTimeout CooldownElapsed (cooldownDuration (config p));
      GoveeStartDiscovery; GoveeRegisterScanStart; GoveeRegisterScanStop;
      Log LDebug "Stop scanning after " [ANum (scanDuration (config p))];
      SetTimeout ScanDurationElapsed (scanDuration (config p))]).
Proof.
  intros Hrun Hcool Ht Hpos.
  destruct p as [cfg accs st cd cache hp tm].
  cbn [config isCooldown timers] in *. subst cd tm.
  apply Z.ltb_lt in Hpos.
  unfold running in Hrun; cbn [platformStatus] in Hrun.
  destruct st as [[|]|]; try discriminate Hrun.
  unfold run, handle, fire, scanDurationElapsed, goveeScanStopped,
    cooldownElapsed, startScanCycle, running, setTimeout, log, emit, bind, get,
    modify, ret, state_of, effects_of.
  cbn -[Z.ltb].
  rewrite (bool_decide_eq_true_2 (Some true = Some true) eq_refl).
  cbn -[Z.ltb]. rewrite Hpos. reflexivity.
Qed.

Lemma duty_cycle_returns_witness :
  (run (H := host) [TimerFires 0; ScanStopped; TimerFires 0]
     (run (H := host) [DidFinishLaunching]
        (new_platform (sample_config 1000 500 []))).1).1
  = (run (H := host) [DidFinishLaunching]
       (new_platform (sample_config 1000 500 []))).1.
Proof.
  rewrite (duty_cycle_returns (H := host)
             (run (H := host) [DidFinishLaunching]
                (new_platform (sample_config 1000 500 []))).1 1000
             eq_refl eq_refl eq_refl eq_refl).
  reflexivity.
Defined.


Lemma no_uuid_allocated_twice_witness :
  discoveryCache (new_platform (sample_config 0 0 [])) !! js "GVH5075_1234" = None
  /\ is_Some (discoveryCache
                (run (H := host) [Reading govee_reading; Reading govee_reading]
                   (new_platform (sample_config 0 0 []))).1
              !! js "GVH5075_1234").
Proof.
  destruct (no_uuid_allocated_twice (H := host)
              [Reading govee_reading; Reading govee_reading]
              (new_platform (sample_config 0 0 []))) as [_ Hw].
  apply Hw. vm_compute. left.
Defined.
